(** * DeviceData: the leaf node of the lazy-tensor IR that wraps backend data

    A shallow embedding of [torch/csrc/lazy/ts_backend/ops/device_data.cpp]
    (namespace [torch::lazy]) and of the node-identity machinery it calls:
    the [TsNode] base constructor, the reuse cache behind [ReuseNode], the
    factory [MakeNode] and the checked downcast [NodeCast].

    Pointers are modelled the way the C++ uses them: a [std::shared_ptr] is
    either null or an address, two pointers are equal when they are the same
    address, and dereferencing the null pointer has no defined result. *)

From Stdlib Require Import ZArith String List Lia Bool.
From stdpp Require Import base list strings.

Local Open Scope Z_scope.
Set Warnings "-register-all".

(** ** Outcomes of a call *)

(** A call either returns, is rejected by a check that raises (the way
    [TORCH_CHECK] does), or dereferences a null pointer, which C++ leaves
    undefined. *)
Inductive outcome (A : Type) : Type :=
| Ok (a : A)
| CheckFailed
| NullDeref.

Arguments Ok {A} a.
Arguments CheckFailed {A}.
Arguments NullDeref {A}.

(** ** Data of the lazy core *)

(** [OpKind]: an interned symbol, compared by its qualified name. *)
Definition OpKind := string.

(** [Shape]: the sizes of the dimensions. *)
Definition Shape := list Z.

(** [hash_t]: the structural hash. *)
Definition hash_t := Z.

(** [BackendDevice]: the device identifier, as [operator<<] writes it. *)
Definition BackendDevice := string.

(** [BackendData]: what a backend data handle exposes, [shape()] and
    [device()]. *)
Record BackendData := {
  shape : Shape;
  device : BackendDevice;
}.

(** [std::shared_ptr<BackendData>]: [None] is the null pointer, [Some a] the
    object at address [a]. Equality is equality of addresses. *)
Definition BackendDataPtr := option nat.

(** The members a class adds to the [TsNode] base: none, or the [data_]
    handle of [DeviceData]. *)
Inductive Derived :=
| PlainTsNode
| DeviceDataObj (data_ : BackendDataPtr).

(** A node object: the state of the [Node] base (operator tag, output
    shapes, output count, input nodes, structural hash) and the members of
    its class. Nodes are immutable once built, so the inputs are held by
    value. *)
Inductive Node : Type := mkNode {
  op : OpKind;
  shapes : list Shape;
  num_outputs : nat;
  operands : list Node;
  hash : hash_t;
  derived : Derived;
}.

(** [NodePtr] = [std::shared_ptr<Node>]: [None] is [nullptr], [Some p] the
    node object at address [p] of the node heap. *)
Definition NodePtr := option nat.

Definition nullptr : NodePtr := None.

(** What [device_data.cpp] includes but does not define. *)
Class LazyCore := {
  (** [ltc_device_data], the operator tag of device data (ltc_ops.h) *)
  ltc_device_data : OpKind;
  (** the backend's objects, by address: what a non-null handle points to *)
  backend : nat → BackendData;
  (** the hash a node starts from: its operator tag, its literal
      parameters (output shapes and output count) and the seed *)
  OpHash : OpKind → list Shape → nat → Z → hash_t;
  (** the mixing function of two hashes *)
  HashCombine : hash_t → hash_t → hash_t;
  (** [TsNode::ToString], the base description of a node *)
  TsNode_ToString : Node → string;
}.

(** The process-wide state the factory works on: the configuration flag,
    the node objects allocated so far (a [NodePtr] is an index into them) and
    the entries of the reuse cache, oldest first. *)
Record IrState := {
  FLAGS_torch_lazy_reuse_ir : bool;
  heap : list Node;
  cache : list nat;
}.

(** At start-up nothing is allocated and reuse is enabled (the default of
    the flag). *)
Definition initial_state : IrState :=
  {| FLAGS_torch_lazy_reuse_ir := true; heap := []; cache := [] |}.

Definition set_reuse_ir (b : bool) (st : IrState) : IrState :=
  {| FLAGS_torch_lazy_reuse_ir := b; heap := heap st; cache := cache st |}.

(** ** State and failure, threaded through the calls *)

Definition M (A : Type) : Type := IrState → outcome (A * IrState).

Definition ret {A} (a : A) : M A := fun st => Ok (a, st).

Definition bind {A B} (m : M A) (k : A → M B) : M B :=
  fun st =>
    match m st with
    | Ok (a, st') => k a st'
    | CheckFailed => CheckFailed
    | NullDeref => NullDeref
    end.

Notation "'let*' x ':=' m 'in' k" := (bind m (fun x => k))
  (at level 10, x name, m at level 100, k at level 200).

Definition read_reuse_ir : M bool :=
  fun st => Ok (FLAGS_torch_lazy_reuse_ir st, st).

(** [static_cast<uint32_t>(z)] *)
Definition static_cast_uint32 (z : Z) : Z := z mod 2 ^ 32.

Section Definitions.
Context `{LazyCore}.

(** ** The node base *)

(** Modelled from the spec: the structural hash the [Node] constructor
    computes; the constructor is declared outside device_data.cpp. It
    combines the seed (with the operator tag and the literal parameters)
    with the hashes of the inputs, in order, using the mixing function. *)
Definition node_hash (o : OpKind) (input_hashes : list hash_t)
    (shs : list Shape) (n_out : nat) (hash_seed : Z) : hash_t :=
  fold_left HashCombine input_hashes (OpHash o shs n_out hash_seed).

(** Modelled from the spec: the [TsNode] constructor (ts_node.h), declared
    outside device_data.cpp. A node is built with (operator tag, input
    nodes, output shapes, output count, seed) and stores its structural hash
    at construction. *)
Definition TsNode (o : OpKind) (ins : list Node) (shs : list Shape)
    (n_out : nat) (hash_seed : Z) : Node :=
  {| op := o; shapes := shs; num_outputs := n_out; operands := ins;
     hash := node_hash o (map hash ins) shs n_out hash_seed;
     derived := PlainTsNode |}.

(** The constructor [device_data.cpp] calls: a leaf with one shape. *)
Definition TsNode_leaf (o : OpKind) (sh : Shape) (n_out : nat)
    (hash_seed : Z) : Node :=
  TsNode o [] [sh] n_out hash_seed.

(** The object of a derived class: the base subobject and its members. *)
Definition with_members (base : Node) (d : Derived) : Node :=
  {| op := op base; shapes := shapes base; num_outputs := num_outputs base;
     operands := operands base; hash := hash base; derived := d |}.

(** ** DeviceData *)

(** [DeviceData::DeviceData(std::shared_ptr<BackendData> data)]: the base is
    initialised first and reads [data->shape()], with no test of [data]. *)
Definition DeviceData (data : BackendDataPtr) : outcome Node :=
  match data with
  | None => NullDeref
  | Some a =>
      Ok (with_members
            (TsNode_leaf ltc_device_data (shape (backend a)) 1
               (static_cast_uint32 101))
            (DeviceDataObj data))
  end.

(** [DeviceData::ToString() const], on the object [this] whose member is
    [data_]. *)
Definition DeviceData_ToString (this : Node) (data_ : BackendDataPtr)
    : outcome string :=
  match data_ with
  | None => NullDeref
  | Some a =>
      Ok (TsNode_ToString this +:+ ", device=" +:+ device (backend a))
  end.

(** The virtual [ToString]: [DeviceData] overrides it. *)
Definition ToString (n : Node) : outcome string :=
  match derived n with
  | PlainTsNode => Ok (TsNode_ToString n)
  | DeviceDataObj data_ => DeviceData_ToString n data_
  end.

(** Modelled from the spec: [NodeCast<T>(node, op)], declared outside
    device_data.cpp. A checked downcast driven by the stored tag: the node
    itself when its operator tag is [o], a typed absence otherwise. *)
Definition NodeCast (node : Node) (o : OpKind) : option Node :=
  if bool_decide (op node = o) then Some node else None.

(** [DeviceData::Cast(const Node* node)] *)
Definition Cast (node : Node) : option Node :=
  NodeCast node ltc_device_data.

(** ** The reuse cache and the factory *)

(** Modelled from the spec: [DeviceData::Equal] (device_data.h), the extra
    parameter of a [DeviceData] node that a reuse lookup compares, which is
    the identity of the wrapped handle. *)
Definition Equal (n : Node) (data : BackendDataPtr) : bool :=
  match derived n with
  | DeviceDataObj data_ => bool_decide (data_ = data)
  | PlainTsNode => false
  end.

(** A cache entry matches a request when it is a live node with the
    requested operator tag whose extra parameter is the requested one. *)
Definition entry_matches (h : list Node) (o : OpKind) (data : BackendDataPtr)
    (p : nat) : bool :=
  match h !! p with
  | Some n => bool_decide (op n = o) && Equal n data
  | None => false
  end.

(** Modelled from the spec: [ReuseNode<DeviceData>(op, data)], declared
    outside device_data.cpp. A leaf has no input hashes to walk, so the
    lookup goes through the entries under the operator tag and returns the
    first one whose handle is [data], or nothing. The caller keeps the
    pointers it was given and nodes are never freed here, so every entry is
    live. *)
Definition ReuseNode (o : OpKind) (data : BackendDataPtr) : M NodePtr :=
  fun st => Ok (List.find (entry_matches (heap st) o data) (cache st), st).

(** Modelled from the spec: [MakeNode<DeviceData>(data)], declared outside
    device_data.cpp. It constructs a new instance with the constructor of
    the variant, then, if reuse is enabled, inserts it into the reuse cache,
    and returns it. *)
Definition MakeNode (data : BackendDataPtr) : M NodePtr :=
  fun st =>
    match DeviceData data with
    | Ok n =>
        let p := length (heap st) in
        Ok (Some p,
            {| FLAGS_torch_lazy_reuse_ir := FLAGS_torch_lazy_reuse_ir st;
               heap := heap st ++ [n];
               cache := if FLAGS_torch_lazy_reuse_ir st
                        then cache st ++ [p] else cache st |})
    | CheckFailed => CheckFailed
    | NullDeref => NullDeref
    end.

(** [DeviceData::Create(std::shared_ptr<BackendData> data)] *)
Definition Create (data : BackendDataPtr) : M NodePtr :=
  let* reuse_ir := read_reuse_ir in
  let* node := (if reuse_ir then ReuseNode ltc_device_data data
                else ret nullptr) in
  match node with
  | None => MakeNode data
  | Some _ => ret node
  end.

(** The body of [DeviceData::Create] with its two helpers left open, to
    tell what the function does itself from what [ReuseNode] and [MakeNode]
    do: [Create] is [Create_with ReuseNode MakeNode]. *)
Definition Create_with (reuse : OpKind → BackendDataPtr → M NodePtr)
    (make : BackendDataPtr → M NodePtr) (data : BackendDataPtr) : M NodePtr :=
  let* reuse_ir := read_reuse_ir in
  let* node := (if reuse_ir then reuse ltc_device_data data
                else ret nullptr) in
  match node with
  | None => make data
  | Some _ => ret node
  end.

(** A call that leaves the flag as it is and the allocated nodes where they
    are, with new ones, if any, after them. *)
Definition flag_kept_heap_extended (s s' : IrState) : Prop :=
  FLAGS_torch_lazy_reuse_ir s' = FLAGS_torch_lazy_reuse_ir s ∧
  ∃ l, heap s' = heap s ++ l.

(** ** Runs of the program *)

(** One step of a client: a call of [Create] that returns, or a write to the
    configuration flag. *)
Inductive step : IrState → IrState → Prop :=
| step_Create data node st st' :
    Create data st = Ok (node, st') → step st st'
| step_flag b st :
    step st (set_reuse_ir b st).

Inductive steps : IrState → IrState → Prop :=
| steps_refl st : steps st st
| steps_step st st' st'' : steps st st' → step st' st'' → steps st st''.

Definition reachable (st : IrState) : Prop := steps initial_state st.

(** The state [MakeNode] leaves when it has built the node [n]. *)
Definition allocated (n : Node) (st : IrState) : IrState :=
  {| FLAGS_torch_lazy_reuse_ir := FLAGS_torch_lazy_reuse_ir st;
     heap := heap st ++ [n];
     cache := if FLAGS_torch_lazy_reuse_ir st
              then cache st ++ [length (heap st)] else cache st |}.

(** The same state with other entries in the reuse cache. *)
Definition with_cache (c : list nat) (st : IrState) : IrState :=
  {| FLAGS_torch_lazy_reuse_ir := FLAGS_torch_lazy_reuse_ir st;
     heap := heap st; cache := c |}.

(** What the constructor builds for the handle at address [a]. *)
Definition DeviceData_node (a : nat) : Node :=
  {| op := ltc_device_data;
     shapes := [shape (backend a)];
     num_outputs := 1;
     operands := [];
     hash := OpHash ltc_device_data [shape (backend a)] 1 101;
     derived := DeviceDataObj (Some a) |}.

(** The attributes of a [DeviceData] node that wraps the handle at address
    [a]: the device-data tag, no inputs, one output with the shape of the
    handle, the handle itself, and a hash seeded with 101. *)
Definition DeviceData_attributes (n : Node) (a : nat) : Prop :=
  op n = ltc_device_data ∧ operands n = [] ∧ num_outputs n = 1%nat ∧
  shapes n = [shape (backend a)] ∧ derived n = DeviceDataObj (Some a) ∧
  hash n = node_hash ltc_device_data [] [shape (backend a)] 1 101.

(** Every entry of the reuse cache is the address of an allocated node. *)
Definition cache_valid (st : IrState) : Prop :=
  Forall (fun p => (p < length (heap st))%nat) (cache st).

(** Every allocated node is one the [DeviceData] constructor built. *)
Definition heap_built (st : IrState) : Prop :=
  Forall (fun n => ∃ a, n = DeviceData_node a) (heap st).

Definition consistent (st : IrState) : Prop :=
  cache_valid st ∧ heap_built st.

End Definitions.

(** ** A concrete lazy core, to run the definitions on *)

Module Example.

(** A 64-bit mixing function, and a backend whose buffers at addresses 0
    and 1 have the same shape and are on the same device. *)
Definition core : LazyCore := {|
  ltc_device_data := "lazy_tensors::device_data";
  backend := fun a =>
    if (a <? 2)%nat then {| shape := [2; 3]; device := "CPU0" |}
    else {| shape := [4]; device := "CPU1" |};
  OpHash := fun o shs n_out seed =>
    (Z.of_nat (String.length o) + 7 * Z.of_nat (length shs)
     + 13 * Z.of_nat n_out + 31 * seed) mod 2 ^ 64;
  HashCombine := fun a b => (a * 1099511628211 + b) mod 2 ^ 64;
  TsNode_ToString := fun n => op n;
|}.

End Example.

(** * Properties *)

Section Properties.
Context `{LazyCore}.

Implicit Types (st : IrState) (a b p : nat) (n : Node) (data : BackendDataPtr).

(** ** The constructor *)

Lemma static_cast_uint32_101 : static_cast_uint32 101 = 101.
Proof. reflexivity. Qed.

Lemma DeviceData_nonnull a : DeviceData (Some a) = Ok (DeviceData_node a).
Proof. reflexivity. Qed.

Lemma DeviceData_null : DeviceData None = NullDeref.
Proof. reflexivity. Qed.

Lemma MakeNode_nonnull a st :
  MakeNode (Some a) st
  = Ok (Some (length (heap st)), allocated (DeviceData_node a) st).
Proof. reflexivity. Qed.

(** ** The three ways through [Create] *)

Lemma Create_hit data st p :
  FLAGS_torch_lazy_reuse_ir st = true →
  List.find (entry_matches (heap st) ltc_device_data data) (cache st) = Some p →
  Create data st = Ok (Some p, st).
Proof.
  intros Hflag Hfind. unfold Create, bind, read_reuse_ir, ReuseNode.
  rewrite Hflag, Hfind. reflexivity.
Qed.

Lemma Create_miss data st :
  FLAGS_torch_lazy_reuse_ir st = true →
  List.find (entry_matches (heap st) ltc_device_data data) (cache st) = None →
  Create data st = MakeNode data st.
Proof.
  intros Hflag Hfind. unfold Create, bind, read_reuse_ir, ReuseNode.
  rewrite Hflag, Hfind. reflexivity.
Qed.

Lemma Create_off data st :
  FLAGS_torch_lazy_reuse_ir st = false →
  Create data st = MakeNode data st.
Proof.
  intros Hflag. unfold Create, bind, read_reuse_ir.
  rewrite Hflag. reflexivity.
Qed.

(** A call that returns either reused an entry and left the state alone, or
    allocated the node of a non-null handle at the next address. *)
Lemma Create_Ok_inv data node st st' :
  Create data st = Ok (node, st') →
  (∃ p, node = Some p ∧ st' = st ∧
        FLAGS_torch_lazy_reuse_ir st = true ∧
        List.find (entry_matches (heap st) ltc_device_data data) (cache st)
        = Some p)
  ∨ (∃ a, data = Some a ∧ node = Some (length (heap st)) ∧
          st' = allocated (DeviceData_node a) st).
Proof.
  intros HC.
  destruct (FLAGS_torch_lazy_reuse_ir st) eqn:Hflag.
  - destruct (List.find (entry_matches (heap st) ltc_device_data data) (cache st))
      as [p|] eqn:Hfind.
    + rewrite (Create_hit _ _ _ Hflag Hfind) in HC. injection HC as <- <-.
      left. exists p. auto.
    + rewrite (Create_miss _ _ Hflag Hfind) in HC.
      destruct data as [a|]; [|discriminate].
      rewrite MakeNode_nonnull in HC. injection HC as <- <-.
      right. exists a. auto.
  - rewrite (Create_off _ _ Hflag) in HC.
    destruct data as [a|]; [|discriminate].
    rewrite MakeNode_nonnull in HC. injection HC as <- <-.
    right. exists a. auto.
Qed.

(** ** Cache entries and the heap *)

Lemma entry_matches_true h o data p :
  entry_matches h o data p = true ↔
  ∃ n, h !! p = Some n ∧ op n = o ∧ derived n = DeviceDataObj data.
Proof.
  unfold entry_matches, Equal. split.
  - destruct (h !! p) as [n|]; [|discriminate].
    intros [Hop Heq]%andb_true_iff. apply bool_decide_eq_true in Hop.
    destruct (derived n) as [|d] eqn:Hd; [discriminate|].
    apply bool_decide_eq_true in Heq. subst d. eauto.
  - intros (n & -> & Hop & ->).
    rewrite !bool_decide_eq_true_2; auto.
Qed.

Lemma entry_matches_grow h n o data p :
  (p < length h)%nat →
  entry_matches (h ++ [n]) o data p = entry_matches h o data p.
Proof. intros Hp. unfold entry_matches. rewrite lookup_app_l; auto. Qed.

Lemma find_ext_Forall {A} (f g : A → bool) (P : A → Prop) (l : list A) :
  Forall P l → (∀ x, P x → f x = g x) → List.find f l = List.find g l.
Proof.
  intros HP Hfg. induction HP as [|x l Hx _ IH]; simpl; [reflexivity|].
  rewrite (Hfg x Hx), IH. reflexivity.
Qed.

Lemma find_app_Some {A} (f : A → bool) (l1 l2 : list A) (x : A) :
  List.find f l1 = Some x → List.find f (l1 ++ l2) = Some x.
Proof.
  induction l1 as [|y l1 IH]; simpl; [discriminate|].
  destruct (f y); auto.
Qed.

Lemma find_app_None {A} (f : A → bool) (l1 l2 : list A) :
  List.find f l1 = None → List.find f (l1 ++ l2) = List.find f l2.
Proof.
  induction l1 as [|y l1 IH]; simpl; [reflexivity|].
  destruct (f y); [discriminate|auto].
Qed.

(** ** What every run preserves *)

Lemma consistent_initial : consistent initial_state.
Proof. split; constructor. Qed.

Lemma consistent_allocated a st :
  consistent st → consistent (allocated (DeviceData_node a) st).
Proof.
  intros [Hc Hh]. split.
  - unfold cache_valid, allocated in *. simpl. rewrite length_app. simpl.
    assert (Hold : Forall (λ p, (p < length (heap st) + 1)%nat) (cache st)).
    { eapply Forall_impl; [exact Hc|]. simpl. intros; lia. }
    destruct (FLAGS_torch_lazy_reuse_ir st); [|exact Hold].
    apply Forall_app. split; [exact Hold|].
    constructor; [lia|constructor].
  - unfold heap_built, allocated in *. simpl.
    apply Forall_app. split; [exact Hh|].
    constructor; [eauto|constructor].
Qed.

Lemma step_consistent st st' : step st st' → consistent st → consistent st'.
Proof.
  intros Hstep Hinv. destruct Hstep as [data node st st' HC | flag st].
  - destruct (Create_Ok_inv _ _ _ _ HC)
      as [(p & _ & -> & _) | (a & _ & _ & ->)]; [exact Hinv|].
    apply consistent_allocated, Hinv.
  - exact Hinv.
Qed.

Lemma steps_consistent st st' : steps st st' → consistent st → consistent st'.
Proof.
  induction 1 as [|st st' st'' _ IH Hstep]; [auto|].
  intros Hinv. eapply step_consistent; eauto.
Qed.

Lemma reachable_consistent st : reachable st → consistent st.
Proof. intros Hr. eapply steps_consistent; [exact Hr|apply consistent_initial]. Qed.

Lemma step_heap_grows st st' : step st st' → ∃ l, heap st' = heap st ++ l.
Proof.
  intros [data node st0 st0' HC | flag st0].
  - destruct (Create_Ok_inv _ _ _ _ HC)
      as [(p & _ & -> & _) | (a & _ & _ & ->)].
    + exists []. rewrite app_nil_r. reflexivity.
    + eexists. reflexivity.
  - exists []. simpl. rewrite app_nil_r. reflexivity.
Qed.

Lemma steps_heap_grows st st' : steps st st' → ∃ l, heap st' = heap st ++ l.
Proof.
  induction 1 as [st|st st' st'' _ [l Hl] Hstep].
  - exists []. rewrite app_nil_r. reflexivity.
  - destruct (step_heap_grows _ _ Hstep) as [l' Hl'].
    exists (l ++ l'). rewrite Hl', Hl, app_assoc. reflexivity.
Qed.

Lemma steps_length st st' :
  steps st st' → (length (heap st) ≤ length (heap st'))%nat.
Proof. intros [l ->]%steps_heap_grows. rewrite length_app. lia. Qed.

(** The entry a lookup returns stays the one it returns, whatever is
    created afterwards. *)
Lemma step_first_match st st' o data p :
  consistent st → step st st' →
  List.find (entry_matches (heap st) o data) (cache st) = Some p →
  List.find (entry_matches (heap st') o data) (cache st') = Some p.
Proof.
  intros [Hc _] Hstep Hfind.
  destruct Hstep as [data0 node st st' HC | flag st]; [|exact Hfind].
  destruct (Create_Ok_inv _ _ _ _ HC)
    as [(q & _ & -> & _) | (a & _ & _ & ->)]; [exact Hfind|].
  assert (Hsame :
    List.find (entry_matches (heap st ++ [DeviceData_node a]) o data) (cache st)
    = Some p).
  { rewrite <- Hfind. eapply find_ext_Forall; [exact Hc|].
    intros q Hq. simpl in Hq. apply entry_matches_grow, Hq. }
  unfold allocated. simpl.
  destruct (FLAGS_torch_lazy_reuse_ir st); [|exact Hsame].
  apply find_app_Some, Hsame.
Qed.

Lemma steps_first_match st st' o data p :
  consistent st → steps st st' →
  List.find (entry_matches (heap st) o data) (cache st) = Some p →
  List.find (entry_matches (heap st') o data) (cache st') = Some p.
Proof.
  intros Hinv Hsteps. induction Hsteps as [|st st' st'' Hs IH Hstep]; [auto|].
  intros Hfind. eapply step_first_match; [|exact Hstep|auto].
  eapply steps_consistent; eauto.
Qed.

(** With reuse enabled, a call with a non-null handle returns a node that is
    from then on the first entry matching that handle. *)
Lemma Create_enters_cache a st :
  consistent st → FLAGS_torch_lazy_reuse_ir st = true →
  ∃ p st', Create (Some a) st = Ok (Some p, st') ∧
    step st st' ∧
    List.find (entry_matches (heap st') ltc_device_data (Some a)) (cache st')
    = Some p.
Proof.
  intros [Hc Hh] Hflag.
  destruct (List.find (entry_matches (heap st) ltc_device_data (Some a)) (cache st))
    as [p|] eqn:Hfind.
  - exists p, st. pose proof (Create_hit _ _ _ Hflag Hfind) as HC.
    split; [exact HC|]. split; [|exact Hfind]. econstructor; exact HC.
  - pose proof (Create_miss _ _ Hflag Hfind) as HC.
    rewrite MakeNode_nonnull in HC.
    exists (length (heap st)), (allocated (DeviceData_node a) st).
    split; [exact HC|]. split; [econstructor; exact HC|].
    unfold allocated. simpl. rewrite Hflag.
    rewrite find_app_None.
    + simpl. unfold entry_matches at 1.
      rewrite lookup_app_r by lia. rewrite Nat.sub_diag. simpl.
      unfold Equal. simpl. rewrite !bool_decide_eq_true_2; auto.
    + rewrite <- Hfind. eapply find_ext_Forall; [exact Hc|].
      intros q Hq. simpl in Hq. apply entry_matches_grow, Hq.
Qed.

Lemma built_node st p n a :
  consistent st → heap st !! p = Some n →
  derived n = DeviceDataObj (Some a) → n = DeviceData_node a.
Proof.
  intros [_ Hh] Hp Hd. unfold heap_built in Hh.
  rewrite Forall_lookup in Hh. destruct (Hh _ _ Hp) as [a' ->].
  simpl in Hd. congruence.
Qed.

Lemma DeviceData_node_attributes a :
  DeviceData_attributes (DeviceData_node a) a.
Proof. repeat split. Qed.

(** In a consistent state a call with a non-null handle returns, whatever
    the flag says, the address of the node the constructor builds for that
    handle. *)
Lemma Create_returns_built a st :
  consistent st →
  ∃ p st', Create (Some a) st = Ok (Some p, st') ∧ step st st' ∧
    heap st' !! p = Some (DeviceData_node a).
Proof.
  intros Hinv. destruct (FLAGS_torch_lazy_reuse_ir st) eqn:Hflag.
  - destruct (Create_enters_cache a st Hinv Hflag) as (p & st' & HC & Hs & Hf).
    exists p, st'. repeat split; auto.
    apply find_some in Hf as [_ Hm].
    apply entry_matches_true in Hm as (n & Hp & _ & Hd).
    rewrite Hp. f_equal.
    apply (built_node st' p n a (step_consistent _ _ Hs Hinv) Hp Hd).
  - pose proof (Create_off (Some a) st Hflag) as HC.
    rewrite MakeNode_nonnull in HC.
    exists (length (heap st)), (allocated (DeviceData_node a) st).
    split; [exact HC|]. split; [econstructor; exact HC|].
    unfold allocated. simpl. rewrite lookup_app_r by lia.
    rewrite Nat.sub_diag. reflexivity.
Qed.

(** No lookup for the null handle succeeds in a consistent state. *)
Lemma no_entry_for_null st :
  consistent st →
  List.find (entry_matches (heap st) ltc_device_data None) (cache st) = None.
Proof.
  intros Hinv.
  destruct (List.find _ _) as [p|] eqn:Hf; [|reflexivity].
  apply find_some in Hf as [_ Hm].
  apply entry_matches_true in Hm as (n & Hp & _ & Hd).
  destruct Hinv as [_ Hh]. unfold heap_built in Hh.
  rewrite Forall_lookup in Hh. destruct (Hh _ _ Hp) as [a ->].
  discriminate.
Qed.

Lemma Create_null st : consistent st → Create None st = NullDeref.
Proof.
  intros Hinv. destruct (FLAGS_torch_lazy_reuse_ir st) eqn:Hflag.
  - rewrite (Create_miss _ _ Hflag (no_entry_for_null st Hinv)). reflexivity.
  - rewrite (Create_off _ _ Hflag). reflexivity.
Qed.

Lemma append_assoc (s1 s2 s3 : string) :
  (s1 +:+ s2) +:+ s3 = s1 +:+ s2 +:+ s3.
Proof.
  induction s1 as [|c s1 IH]; [reflexivity|].
  change (String c ((s1 +:+ s2) +:+ s3) = String c (s1 +:+ s2 +:+ s3)).
  rewrite IH. reflexivity.
Qed.

(** A call with a non-null handle returns in every state, with the address
    of a node that carries the device-data tag and wraps that handle:
    either the first matching entry of the cache, or a new node at the next
    address when reuse is off or the lookup found nothing. *)
Lemma Create_nonnull_cases a st :
  ∃ p st', Create (Some a) st = Ok (Some p, st') ∧
    ∃ n, heap st' !! p = Some n ∧ op n = ltc_device_data ∧
      derived n = DeviceDataObj (Some a) ∧
      ((FLAGS_torch_lazy_reuse_ir st = true ∧ st' = st ∧
        List.find (entry_matches (heap st) ltc_device_data (Some a)) (cache st)
        = Some p)
       ∨ ((FLAGS_torch_lazy_reuse_ir st = false ∨
           List.find (entry_matches (heap st) ltc_device_data (Some a))
             (cache st) = None) ∧
          p = length (heap st) ∧ n = DeviceData_node a ∧
          st' = allocated (DeviceData_node a) st)).
Proof.
  assert (Hnew : (allocated (DeviceData_node a) st).(heap) !! length (heap st)
                 = Some (DeviceData_node a)).
  { unfold allocated. simpl. rewrite lookup_app_r by lia.
    rewrite Nat.sub_diag. reflexivity. }
  destruct (FLAGS_torch_lazy_reuse_ir st) eqn:Hflag.
  - destruct (List.find (entry_matches (heap st) ltc_device_data (Some a)) (cache st))
      as [p|] eqn:Hfind.
    + exists p, st. split; [apply Create_hit; assumption|].
      pose proof Hfind as Hf. apply find_some in Hf as [_ Hm].
      apply entry_matches_true in Hm as (n & Hp & Hop & Hd).
      exists n. split; [exact Hp|]. split; [exact Hop|]. split; [exact Hd|].
      left. auto.
    + exists (length (heap st)), (allocated (DeviceData_node a) st).
      split; [rewrite (Create_miss _ _ Hflag Hfind); apply MakeNode_nonnull|].
      exists (DeviceData_node a).
      split; [exact Hnew|]. split; [reflexivity|]. split; [reflexivity|].
      right. auto.
  - exists (length (heap st)), (allocated (DeviceData_node a) st).
    split; [rewrite (Create_off _ _ Hflag); apply MakeNode_nonnull|].
    exists (DeviceData_node a).
    split; [exact Hnew|]. split; [reflexivity|]. split; [reflexivity|].
    right. auto.
Qed.

(** ** The claims about reuse *)

(** C1. With reuse enabled, a second call of [DeviceData::Create] with the
    same handle returns the same node instance as the first (the same
    address), whatever was created in between, while a call with a handle at
    another address returns another instance, also when both handles have
    the same shape and device, so that the two nodes have the same hash. *)
Theorem Create_reuses_by_handle_identity st a b :
  reachable st → FLAGS_torch_lazy_reuse_ir st = true → a ≠ b →
  ∃ pa s1, Create (Some a) st = Ok (Some pa, s1) ∧
    ∀ s2, steps s1 s2 → FLAGS_torch_lazy_reuse_ir s2 = true →
      Create (Some a) s2 = Ok (Some pa, s2) ∧
      ∃ pb s3, Create (Some b) s2 = Ok (Some pb, s3) ∧ pb ≠ pa ∧
        heap s3 !! pa = Some (DeviceData_node a) ∧
        heap s3 !! pb = Some (DeviceData_node b).
Proof.
  intros Hr Hflag Hab. pose proof (reachable_consistent _ Hr) as Hinv.
  destruct (Create_enters_cache a st Hinv Hflag) as (pa & s1 & HCa & Hs1 & Hfa).
  exists pa, s1. split; [exact HCa|]. intros s2 Hs2 Hflag2.
  pose proof (step_consistent _ _ Hs1 Hinv) as Hinv1.
  pose proof (steps_consistent _ _ Hs2 Hinv1) as Hinv2.
  pose proof (steps_first_match _ _ _ _ _ Hinv1 Hs2 Hfa) as Hfa2.
  split; [apply Create_hit; assumption|].
  destruct (Create_returns_built b s2 Hinv2) as (pb & s3 & HCb & Hs3 & Hpb).
  pose proof (step_first_match _ _ _ _ _ Hinv2 Hs3 Hfa2) as Hfa3.
  apply find_some in Hfa3 as [_ Hm].
  apply entry_matches_true in Hm as (na & Hpa & _ & Hda).
  pose proof (built_node _ _ _ _ (step_consistent _ _ Hs3 Hinv2) Hpa Hda) as ->.
  exists pb, s3. repeat split; auto.
  intros ->. rewrite Hpb in Hpa. injection Hpa as Heq. congruence.
Qed.

(** C2. Two [DeviceData] nodes built from non-null handles of equal shape
    have the same structural hash: it is the hash of the device-data tag, the
    shape, the output count 1 and the seed 101, whichever handle is wrapped
    and whatever state the factory is in when the node is made. *)
Theorem DeviceData_hash_from_shape_only a b st1 st2 :
  shape (backend a) = shape (backend b) →
  reachable st1 → reachable st2 →
  (∃ na nb, DeviceData (Some a) = Ok na ∧ DeviceData (Some b) = Ok nb ∧
     hash na = hash nb ∧
     hash na = OpHash ltc_device_data [shape (backend a)] 1 101) ∧
  (∃ p1 s1 n1 p2 s2 n2,
     Create (Some a) st1 = Ok (Some p1, s1) ∧ heap s1 !! p1 = Some n1 ∧
     Create (Some b) st2 = Ok (Some p2, s2) ∧ heap s2 !! p2 = Some n2 ∧
     hash n1 = hash n2).
Proof.
  intros Hshape Hr1 Hr2. split.
  - exists (DeviceData_node a), (DeviceData_node b).
    repeat split; simpl; rewrite ?Hshape; reflexivity.
  - destruct (Create_returns_built a st1 (reachable_consistent _ Hr1))
      as (p1 & s1 & HC1 & _ & Hp1).
    destruct (Create_returns_built b st2 (reachable_consistent _ Hr2))
      as (p2 & s2 & HC2 & _ & Hp2).
    exists p1, s1, (DeviceData_node a), p2, s2, (DeviceData_node b).
    repeat split; auto. simpl. rewrite Hshape. reflexivity.
Qed.

(** C3. With the reuse flag off, [DeviceData::Create] does no lookup: it
    allocates a node at a fresh address whatever the reuse cache holds, and
    leaves the cache as it was; a later call with the flag off, with the
    same handle or another, returns a different instance. *)
Theorem Create_without_reuse_is_fresh st a b :
  FLAGS_torch_lazy_reuse_ir st = false →
  ∃ s1, Create (Some a) st = Ok (Some (length (heap st)), s1) ∧
    heap st !! length (heap st) = None ∧
    cache s1 = cache st ∧
    (∀ c, Create (Some a) (with_cache c st)
          = Ok (Some (length (heap st)), with_cache c s1)) ∧
    ∀ s2, steps s1 s2 → FLAGS_torch_lazy_reuse_ir s2 = false →
      ∃ p2 s3, Create (Some b) s2 = Ok (Some p2, s3) ∧
        p2 ≠ length (heap st) ∧ cache s3 = cache s2.
Proof.
  intros Hflag. exists (allocated (DeviceData_node a) st).
  split; [rewrite (Create_off _ _ Hflag); apply MakeNode_nonnull|].
  split; [apply lookup_ge_None; lia|].
  split; [unfold allocated; simpl; rewrite Hflag; reflexivity|].
  split.
  - intros c. rewrite Create_off by exact Hflag. rewrite MakeNode_nonnull.
    unfold allocated, with_cache. simpl. rewrite Hflag. reflexivity.
  - intros s2 Hs2 Hflag2.
    exists (length (heap s2)), (allocated (DeviceData_node b) s2).
    split; [rewrite (Create_off _ _ Hflag2); apply MakeNode_nonnull|].
    split.
    + apply steps_length in Hs2. unfold allocated in Hs2. simpl in Hs2.
      rewrite length_app in Hs2. simpl in Hs2. lia.
    + unfold allocated. simpl. rewrite Hflag2. reflexivity.
Qed.

(** C4. [DeviceData::Cast] returns the node itself exactly when the
    operator tag of the node is the device-data tag, and an absence
    otherwise: a match for the node [DeviceData::Create] returns, no match
    for a node built with any other tag. It returns in every case. *)
Theorem Cast_matches_the_device_data_tag st a m o ins shs k seed d :
  o ≠ ltc_device_data →
  (∃ p st' n, Create (Some a) st = Ok (Some p, st') ∧
     heap st' !! p = Some n ∧ Cast n = Some n) ∧
  (Cast m = Some m ↔ op m = ltc_device_data) ∧
  (Cast m = None ↔ op m ≠ ltc_device_data) ∧
  Cast (with_members (TsNode o ins shs k seed) d) = None.
Proof.
  intros Ho.
  assert (Htag : ∀ m', (op m' = ltc_device_data → Cast m' = Some m') ∧
                       (op m' ≠ ltc_device_data → Cast m' = None)).
  { intros m'. unfold Cast, NodeCast. split; intros Hm.
    - rewrite bool_decide_eq_true_2; auto.
    - rewrite bool_decide_eq_false_2; auto. }
  split; [|split; [|split]].
  - destruct (Create_nonnull_cases a st) as (p & st' & HC & n & Hp & Hop & _).
    exists p, st', n. repeat split; auto. apply Htag, Hop.
  - split; [|apply Htag].
    destruct (decide (op m = ltc_device_data)) as [|Hne]; [auto|].
    rewrite (proj2 (Htag m) Hne). discriminate.
  - split; [|apply Htag].
    destruct (decide (op m = ltc_device_data)) as [He|]; [|auto].
    rewrite (proj1 (Htag m) He). discriminate.
  - apply Htag. simpl. exact Ho.
Qed.

(** ** The claims about the node itself *)

(** C5, as the code has it. The construction of a [DeviceData] makes no
    check of the handle: the constructor reads the shape through it at once.
    With the null handle this is a null dereference, directly and through
    [DeviceData::Create] alike, never a rejection by a check, and no node is
    built; with a non-null handle the constructor completes with every
    attribute of the node set. *)
Theorem DeviceData_reads_handle_unchecked st data :
  reachable st →
  DeviceData None = NullDeref ∧
  Create None st = NullDeref ∧
  DeviceData data ≠ CheckFailed ∧
  Create data st ≠ CheckFailed ∧
  match data with
  | None => True
  | Some a => ∃ n, DeviceData data = Ok n ∧ DeviceData_attributes n a
  end.
Proof.
  intros Hr. pose proof (reachable_consistent _ Hr) as Hinv.
  split; [reflexivity|]. split; [apply Create_null, Hinv|].
  destruct data as [a|].
  - split; [discriminate|]. split.
    + destruct (Create_nonnull_cases a st) as (p & st' & -> & _). discriminate.
    + exists (DeviceData_node a). split; [reflexivity|].
      apply DeviceData_node_attributes.
  - split; [discriminate|]. split; [|exact I].
    rewrite (Create_null _ Hinv). discriminate.
Qed.

(** C6. [ToString] of a [DeviceData] node is the base description followed
    by [", device="] and the device identifier of the wrapped handle; so the
    description contains ["device="] followed by that identifier. *)
Theorem ToString_appends_the_device n a :
  derived n = DeviceDataObj (Some a) →
  ToString n = Ok (TsNode_ToString n +:+ ", device=" +:+ device (backend a)) ∧
  DeviceData_ToString n (Some a) = ToString n ∧
  ∃ before, ToString n = Ok (before +:+ "device=" +:+ device (backend a)).
Proof.
  intros Hd. unfold ToString. rewrite Hd. simpl.
  split; [reflexivity|]. split; [reflexivity|].
  exists (TsNode_ToString n +:+ ", "). f_equal.
  rewrite append_assoc. reflexivity.
Qed.

(** C7. Every [DeviceData] node, built by the constructor, found in the
    heap of a run, or returned by [DeviceData::Create], has the device-data
    tag, no inputs, exactly one output whose shape is the shape of the
    wrapped handle, and the hash of a leaf seeded with 101. *)
Theorem DeviceData_attributes_hold st a p n :
  reachable st → heap st !! p = Some n →
  (∃ a', DeviceData_attributes n a') ∧
  (∃ n', DeviceData (Some a) = Ok n' ∧ DeviceData_attributes n' a) ∧
  (∃ p' st' n', Create (Some a) st = Ok (Some p', st') ∧
     heap st' !! p' = Some n' ∧ DeviceData_attributes n' a).
Proof.
  intros Hr Hp. pose proof (reachable_consistent _ Hr) as Hinv.
  split; [|split].
  - destruct Hinv as [_ Hh]. unfold heap_built in Hh.
    rewrite Forall_lookup in Hh. destruct (Hh _ _ Hp) as [a' ->].
    exists a'. apply DeviceData_node_attributes.
  - exists (DeviceData_node a). split; [reflexivity|].
    apply DeviceData_node_attributes.
  - destruct (Create_returns_built a st Hinv) as (p' & st' & HC & _ & Hp').
    exists p', st', (DeviceData_node a). repeat split; auto.
Qed.

(** C10, as the code has it. For every non-null handle, in every state and
    whatever the reuse flag says, [DeviceData::Create] returns a non-null
    pointer to an allocated node: the entry the lookup found, or, when reuse
    is off or the lookup found nothing, a node it has just built. *)
Theorem Create_returns_a_node st a :
  ∃ p st' n, Create (Some a) st = Ok (Some p, st') ∧ Some p ≠ nullptr ∧
    heap st' !! p = Some n ∧
    ((FLAGS_torch_lazy_reuse_ir st = true ∧ st' = st ∧
      List.find (entry_matches (heap st) ltc_device_data (Some a)) (cache st)
      = Some p)
     ∨ ((FLAGS_torch_lazy_reuse_ir st = false ∨
         List.find (entry_matches (heap st) ltc_device_data (Some a))
           (cache st) = None) ∧
        p = length (heap st) ∧ n = DeviceData_node a ∧
        heap st' = heap st ++ [n])).
Proof.
  destruct (Create_nonnull_cases a st)
    as (p & st' & HC & n & Hp & _ & _ & Hcases).
  exists p, st', n. split; [exact HC|]. split; [discriminate|].
  split; [exact Hp|].
  destruct Hcases as [Hhit | (Hwhy & -> & -> & ->)]; [left; exact Hhit|].
  right. repeat split; auto.
Qed.

End Properties.

(** * The properties on the concrete lazy core *)

Module Witnesses.

#[local] Existing Instance Example.core.

(** Three calls with reuse enabled: the buffer at 0 twice, then the buffer
    at 1, which has the same shape and device. *)
Example Create_three_calls :
  (let* n1 := Create (Some 0%nat) in
   let* n2 := Create (Some 0%nat) in
   let* n3 := Create (Some 1%nat) in
   ret (n1, n2, n3)) initial_state
  = Ok ((Some 0%nat, Some 0%nat, Some 1%nat),
        {| FLAGS_torch_lazy_reuse_ir := true;
           heap := [DeviceData_node 0; DeviceData_node 1];
           cache := [0%nat; 1%nat] |}).
Proof. reflexivity. Qed.

(** The same buffer twice with reuse switched off. *)
Example Create_two_calls_without_reuse :
  (let* n1 := Create (Some 0%nat) in
   let* n2 := Create (Some 0%nat) in
   ret (n1, n2)) (set_reuse_ir false initial_state)
  = Ok ((Some 0%nat, Some 1%nat),
        {| FLAGS_torch_lazy_reuse_ir := false;
           heap := [DeviceData_node 0; DeviceData_node 0];
           cache := [] |}).
Proof. reflexivity. Qed.

Example ToString_of_buffer_0 :
  ToString (DeviceData_node 0) = Ok "lazy_tensors::device_data, device=CPU0".
Proof. reflexivity. Qed.

Example hash_of_buffers_0_and_1 :
  hash (DeviceData_node 0) = 3176 ∧ hash (DeviceData_node 1) = 3176.
Proof. split; reflexivity. Qed.

(** C1 at start-up, for the buffers at addresses 0 and 1, which have the
    same shape and are on the same device. *)
Lemma Create_reuses_by_handle_identity_witness :
  reachable initial_state ∧
  FLAGS_torch_lazy_reuse_ir initial_state = true ∧
  0%nat ≠ 1%nat ∧
  backend 0 = backend 1 ∧
  ∃ pa s1, Create (Some 0%nat) initial_state = Ok (Some pa, s1) ∧
    ∀ s2, steps s1 s2 → FLAGS_torch_lazy_reuse_ir s2 = true →
      Create (Some 0%nat) s2 = Ok (Some pa, s2) ∧
      ∃ pb s3, Create (Some 1%nat) s2 = Ok (Some pb, s3) ∧ pb ≠ pa ∧
        heap s3 !! pa = Some (DeviceData_node 0) ∧
        heap s3 !! pb = Some (DeviceData_node 1).
Proof.
  assert (Hr : reachable initial_state) by apply steps_refl.
  assert (Hf : FLAGS_torch_lazy_reuse_ir initial_state = true) by reflexivity.
  assert (Hne : 0%nat ≠ 1%nat) by discriminate.
  split; [exact Hr|]. split; [exact Hf|]. split; [exact Hne|].
  split; [reflexivity|].
  exact (Create_reuses_by_handle_identity initial_state 0 1 Hr Hf Hne).
Defined.

(** C2 for the buffers at addresses 0 and 1, one node made at start-up and
    one after reuse was switched off. *)
Lemma DeviceData_hash_from_shape_only_witness :
  shape (backend 0) = shape (backend 1) ∧
  reachable initial_state ∧
  reachable (set_reuse_ir false initial_state) ∧
  (∃ na nb, DeviceData (Some 0%nat) = Ok na ∧ DeviceData (Some 1%nat) = Ok nb ∧
     hash na = hash nb ∧
     hash na = OpHash ltc_device_data [shape (backend 0)] 1 101) ∧
  (∃ p1 s1 n1 p2 s2 n2,
     Create (Some 0%nat) initial_state = Ok (Some p1, s1) ∧
     heap s1 !! p1 = Some n1 ∧
     Create (Some 1%nat) (set_reuse_ir false initial_state) = Ok (Some p2, s2) ∧
     heap s2 !! p2 = Some n2 ∧
     hash n1 = hash n2).
Proof.
  assert (Hs : shape (backend 0) = shape (backend 1)) by reflexivity.
  assert (Hr1 : reachable initial_state) by apply steps_refl.
  assert (Hr2 : reachable (set_reuse_ir false initial_state)).
  { eapply steps_step; [apply steps_refl|apply step_flag]. }
  split; [exact Hs|]. split; [exact Hr1|]. split; [exact Hr2|].
  exact (DeviceData_hash_from_shape_only 0 1 _ _ Hs Hr1 Hr2).
Defined.

(** C3 with reuse switched off at start-up, twice the same handle. *)
Lemma Create_without_reuse_is_fresh_witness :
  FLAGS_torch_lazy_reuse_ir (set_reuse_ir false initial_state) = false ∧
  ∃ s1, Create (Some 0%nat) (set_reuse_ir false initial_state)
        = Ok (Some 0%nat, s1) ∧
    heap (set_reuse_ir false initial_state) !! 0%nat = None ∧
    cache s1 = [] ∧
    (∀ c, Create (Some 0%nat) (with_cache c (set_reuse_ir false initial_state))
          = Ok (Some 0%nat, with_cache c s1)) ∧
    ∀ s2, steps s1 s2 → FLAGS_torch_lazy_reuse_ir s2 = false →
      ∃ p2 s3, Create (Some 0%nat) s2 = Ok (Some p2, s3) ∧
        p2 ≠ 0%nat ∧ cache s3 = cache s2.
Proof.
  assert (Hf : FLAGS_torch_lazy_reuse_ir (set_reuse_ir false initial_state)
               = false) by reflexivity.
  split; [exact Hf|].
  exact (Create_without_reuse_is_fresh (set_reuse_ir false initial_state) 0 0 Hf).
Defined.

(** C4 at start-up, against a two-input node with another tag. *)
Lemma Cast_matches_the_device_data_tag_witness :
  "aten::add" ≠ ltc_device_data ∧
  (∃ p st' n, Create (Some 0%nat) initial_state = Ok (Some p, st') ∧
     heap st' !! p = Some n ∧ Cast n = Some n) ∧
  (Cast (DeviceData_node 2) = Some (DeviceData_node 2)
   ↔ op (DeviceData_node 2) = ltc_device_data) ∧
  (Cast (DeviceData_node 2) = None
   ↔ op (DeviceData_node 2) ≠ ltc_device_data) ∧
  Cast (with_members
          (TsNode "aten::add" [DeviceData_node 0; DeviceData_node 2]
             [[2; 3]] 1 7)
          PlainTsNode) = None.
Proof.
  assert (Ho : "aten::add" ≠ ltc_device_data) by discriminate.
  split; [exact Ho|].
  exact (Cast_matches_the_device_data_tag initial_state 0 (DeviceData_node 2)
           "aten::add" [DeviceData_node 0; DeviceData_node 2] [[2; 3]] 1 7
           PlainTsNode Ho).
Defined.

(** C5: the null handle is not rejected by a check, it is dereferenced. *)
Lemma null_handle_is_not_rejected :
  DeviceData None = NullDeref ∧
  ¬ (DeviceData None = CheckFailed) ∧
  ¬ (Create None initial_state = CheckFailed) ∧
  ¬ (Create None (set_reuse_ir false initial_state) = CheckFailed).
Proof. split; [reflexivity|]. repeat split; discriminate. Qed.

(** C5 as amended, at start-up with the buffer at address 0. *)
Lemma DeviceData_reads_handle_unchecked_witness :
  reachable initial_state ∧
  DeviceData None = NullDeref ∧
  Create None initial_state = NullDeref ∧
  DeviceData (Some 0%nat) ≠ CheckFailed ∧
  Create (Some 0%nat) initial_state ≠ CheckFailed ∧
  ∃ n, DeviceData (Some 0%nat) = Ok n ∧ DeviceData_attributes n 0.
Proof.
  assert (Hr : reachable initial_state) by apply steps_refl.
  split; [exact Hr|].
  exact (DeviceData_reads_handle_unchecked initial_state (Some 0%nat) Hr).
Defined.

(** C6 for the node of the buffer at address 0. *)
Lemma ToString_appends_the_device_witness :
  derived (DeviceData_node 0) = DeviceDataObj (Some 0%nat) ∧
  ToString (DeviceData_node 0)
  = Ok (TsNode_ToString (DeviceData_node 0) +:+ ", device=" +:+ "CPU0") ∧
  DeviceData_ToString (DeviceData_node 0) (Some 0%nat)
  = ToString (DeviceData_node 0) ∧
  ∃ before, ToString (DeviceData_node 0) = Ok (before +:+ "device=" +:+ "CPU0").
Proof.
  assert (Hd : derived (DeviceData_node 0) = DeviceDataObj (Some 0%nat))
    by reflexivity.
  split; [exact Hd|].
  exact (ToString_appends_the_device (DeviceData_node 0) 0 Hd).
Defined.

(** C7 in the run that has created one node. *)
Lemma DeviceData_attributes_hold_witness :
  reachable (allocated (DeviceData_node 0) initial_state) ∧
  heap (allocated (DeviceData_node 0) initial_state) !! 0%nat
  = Some (DeviceData_node 0) ∧
  (∃ a', DeviceData_attributes (DeviceData_node 0) a') ∧
  (∃ n', DeviceData (Some 2%nat) = Ok n' ∧ DeviceData_attributes n' 2) ∧
  (∃ p' st' n',
     Create (Some 2%nat) (allocated (DeviceData_node 0) initial_state)
     = Ok (Some p', st') ∧
     heap st' !! p' = Some n' ∧ DeviceData_attributes n' 2).
Proof.
  assert (Hr : reachable (allocated (DeviceData_node 0) initial_state)).
  { eapply steps_step; [apply steps_refl|].
    apply (step_Create (Some 0%nat) (Some 0%nat)). reflexivity. }
  assert (Hp : heap (allocated (DeviceData_node 0) initial_state) !! 0%nat
               = Some (DeviceData_node 0)) by reflexivity.
  split; [exact Hr|]. split; [exact Hp|].
  exact (DeviceData_attributes_hold _ 2 0 (DeviceData_node 0) Hr Hp).
Defined.

(** C10: with the null handle [Create] returns no pointer, with reuse
    enabled or not. *)
Lemma Create_null_returns_no_node :
  Create None initial_state = NullDeref ∧
  Create None (set_reuse_ir false initial_state) = NullDeref ∧
  ¬ (∀ data reuse_ir,
       ∃ p st', Create data (set_reuse_ir reuse_ir initial_state)
                = Ok (Some p, st') ∧ Some p ≠ nullptr).
Proof.
  split; [reflexivity|]. split; [reflexivity|].
  intros Hall. destruct (Hall None false) as (p & st' & HC & _).
  discriminate HC.
Qed.

End Witnesses.

(** * Further properties of the four functions *)

Section Further.
Context `{LazyCore}.

Implicit Types (st : IrState) (a : nat) (n : Node) (data : BackendDataPtr).

Lemma Create_is_Create_with data st :
  Create data st = Create_with ReuseNode MakeNode data st.
Proof. reflexivity. Qed.

Lemma length_append (s1 s2 : string) :
  String.length (s1 +:+ s2) = (String.length s1 + String.length s2)%nat.
Proof.
  induction s1 as [|c s1 IH]; [reflexivity|].
  change (S (String.length (s1 +:+ s2))
          = S (String.length s1 + String.length s2)).
  rewrite IH. reflexivity.
Qed.

(** ** The description *)

(** X1. Two [DeviceData] nodes with the same base description have the same
    description exactly when their handles are on the same device: the
    suffix [ToString] appends tells the devices apart. *)
Theorem ToString_tells_devices_apart n1 n2 a1 a2 :
  derived n1 = DeviceDataObj (Some a1) →
  derived n2 = DeviceDataObj (Some a2) →
  TsNode_ToString n1 = TsNode_ToString n2 →
  (ToString n1 = ToString n2 ↔ device (backend a1) = device (backend a2)).
Proof.
  intros Hd1 Hd2 Hbase. unfold ToString. rewrite Hd1, Hd2. simpl.
  rewrite Hbase. split.
  - intros Heq. injection Heq as Heq.
    apply String.app_inj in Heq. apply String.app_inj in Heq. exact Heq.
  - intros ->. reflexivity.
Qed.

(** X2. The description of a [DeviceData] node is longer than its base
    description by the nine characters of [", device="] and the length of
    the device identifier; so it is never the bare base description, not
    even for an empty device identifier. *)
Theorem ToString_length n a :
  derived n = DeviceDataObj (Some a) →
  ∃ s, ToString n = Ok s ∧
    String.length s
    = (String.length (TsNode_ToString n) + 9
       + String.length (device (backend a)))%nat ∧
    s ≠ TsNode_ToString n.
Proof.
  intros Hd. unfold ToString. rewrite Hd. simpl.
  eexists. split; [reflexivity|].
  assert (Hlen : String.length
                   (TsNode_ToString n +:+ ", device=" +:+ device (backend a))
                 = (String.length (TsNode_ToString n) + 9
                    + String.length (device (backend a)))%nat).
  { rewrite !length_append. simpl. lia. }
  split; [exact Hlen|].
  intros Heq. rewrite Heq in Hlen. lia.
Qed.

(** X3. A node the constructor completes can be used at once: the handle it
    was given is non-null, [ToString] on the node returns (it finds the
    handle the constructor stored) and names the device of that handle, and
    [Cast] recognises the node. *)
Theorem constructed_node_prints_and_casts data n :
  DeviceData data = Ok n →
  ∃ a, data = Some a ∧
    ToString n
    = Ok (TsNode_ToString n +:+ ", device=" +:+ device (backend a)) ∧
    Cast n = Some n.
Proof.
  intros Hctor. destruct data as [a|]; [|discriminate].
  injection Hctor as <-. exists a. split; [reflexivity|].
  split; [reflexivity|].
  unfold Cast, NodeCast. simpl. rewrite bool_decide_eq_true_2; reflexivity.
Qed.

(** ** What [Create] does itself *)

(** X4. [Create] returns the null pointer only if [MakeNode] does: whatever
    [ReuseNode] does, when [MakeNode] never returns null then neither does
    [Create]. *)
Theorem Create_with_nonnull reuse make data st node st' :
  (∀ d s p s', make d s = Ok (p, s') → p ≠ nullptr) →
  Create_with reuse make data st = Ok (node, st') →
  node ≠ nullptr.
Proof.
  intros Hmake. unfold Create_with, bind, read_reuse_ir.
  destruct (FLAGS_torch_lazy_reuse_ir st).
  - destruct (reuse ltc_device_data data st) as [[[p|] s1]| |];
      try discriminate.
    + unfold ret. intros [= <- <-]. discriminate.
    + apply Hmake.
  - unfold ret. apply Hmake.
Qed.

(** X5. [Create] has no failure of its own. When it does not return, the
    failure is that of [ReuseNode], called with reuse enabled on the state
    [Create] was called in, or that of [MakeNode], called on that state or
    on the one a lookup that found nothing left. *)
Theorem Create_with_fails_in_a_helper reuse make data st
    (e : outcome (NodePtr * IrState)) :
  (∀ r, e ≠ Ok r) →
  Create_with reuse make data st = e →
  (FLAGS_torch_lazy_reuse_ir st = true ∧ reuse ltc_device_data data st = e)
  ∨ (∃ st1, make data st1 = e ∧
       ((FLAGS_torch_lazy_reuse_ir st = false ∧ st1 = st)
        ∨ (FLAGS_torch_lazy_reuse_ir st = true ∧
           reuse ltc_device_data data st = Ok (nullptr, st1)))).
Proof.
  intros Hfail. unfold Create_with, bind, read_reuse_ir.
  destruct (FLAGS_torch_lazy_reuse_ir st) eqn:Hflag.
  - destruct (reuse ltc_device_data data st) as [[[p|] s1]| |] eqn:Hreuse.
    + unfold ret. intros <-. exfalso. eapply Hfail. reflexivity.
    + intros Hm. right. exists s1. split; [exact Hm|]. right. auto.
    + intros <-. left. auto.
    + intros <-. left. auto.
  - unfold ret. intros Hm. right. exists st. split; [exact Hm|]. left. auto.
Qed.

(** X6. [Create] changes the state only through its helpers: a relation
    between states that holds of a state and itself, composes, and is kept
    by every call of [ReuseNode] and of [MakeNode] that returns, is kept by
    every call of [Create] that returns. *)
Theorem Create_with_changes_state_through_helpers
    (R : IrState → IrState → Prop) reuse make data st node st' :
  (∀ s, R s s) →
  (∀ s1 s2 s3, R s1 s2 → R s2 s3 → R s1 s3) →
  (∀ o d s p s', reuse o d s = Ok (p, s') → R s s') →
  (∀ d s p s', make d s = Ok (p, s') → R s s') →
  Create_with reuse make data st = Ok (node, st') →
  R st st'.
Proof.
  intros Hrefl Htrans Hreuse Hmake. unfold Create_with, bind, read_reuse_ir.
  destruct (FLAGS_torch_lazy_reuse_ir st).
  - destruct (reuse ltc_device_data data st) as [[[p|] s1]| |] eqn:Hr;
      try discriminate.
    + unfold ret. intros [= <- <-]. eapply Hreuse, Hr.
    + intros Hm. eapply Htrans; [eapply Hreuse, Hr|eapply Hmake, Hm].
  - unfold ret. intros Hm. eapply Hmake, Hm.
Qed.

(** The helpers as modelled: [MakeNode] never returns null, and both keep
    [flag_kept_heap_extended]. *)
Lemma MakeNode_never_null data st p st' :
  MakeNode data st = Ok (p, st') → p ≠ nullptr.
Proof.
  unfold MakeNode. destruct (DeviceData data); try discriminate.
  intros [= <- <-]. discriminate.
Qed.

Lemma ReuseNode_keeps o data st p st' :
  ReuseNode o data st = Ok (p, st') → flag_kept_heap_extended st st'.
Proof.
  unfold ReuseNode. intros [= _ <-]. split; [reflexivity|].
  exists []. rewrite app_nil_r. reflexivity.
Qed.

Lemma MakeNode_keeps data st p st' :
  MakeNode data st = Ok (p, st') → flag_kept_heap_extended st st'.
Proof.
  unfold MakeNode. destruct (DeviceData data) as [n| |]; try discriminate.
  intros [= _ <-]. split; [reflexivity|]. eexists. reflexivity.
Qed.

Lemma flag_kept_heap_extended_refl s : flag_kept_heap_extended s s.
Proof. split; [reflexivity|]. exists []. rewrite app_nil_r. reflexivity. Qed.

Lemma flag_kept_heap_extended_trans s1 s2 s3 :
  flag_kept_heap_extended s1 s2 → flag_kept_heap_extended s2 s3 →
  flag_kept_heap_extended s1 s3.
Proof.
  intros [Hf1 [l1 Hl1]] [Hf2 [l2 Hl2]]. split; [congruence|].
  exists (l1 ++ l2). rewrite Hl2, Hl1, app_assoc. reflexivity.
Qed.

End Further.

Module FurtherWitnesses.

#[local] Existing Instance Example.core.

(** X1 for the buffers at addresses 0 and 2, which are on different
    devices. *)
Lemma ToString_tells_devices_apart_witness :
  derived (DeviceData_node 0) = DeviceDataObj (Some 0%nat) ∧
  derived (DeviceData_node 2) = DeviceDataObj (Some 2%nat) ∧
  TsNode_ToString (DeviceData_node 0) = TsNode_ToString (DeviceData_node 2) ∧
  (ToString (DeviceData_node 0) = ToString (DeviceData_node 2)
   ↔ device (backend 0) = device (backend 2)).
Proof.
  assert (H0 : derived (DeviceData_node 0) = DeviceDataObj (Some 0%nat))
    by reflexivity.
  assert (H2 : derived (DeviceData_node 2) = DeviceDataObj (Some 2%nat))
    by reflexivity.
  assert (Hb : TsNode_ToString (DeviceData_node 0)
               = TsNode_ToString (DeviceData_node 2)) by reflexivity.
  split; [exact H0|]. split; [exact H2|]. split; [exact Hb|].
  exact (ToString_tells_devices_apart _ _ 0 2 H0 H2 Hb).
Defined.

(** X2 for the node of the buffer at address 0. *)
Lemma ToString_length_witness :
  derived (DeviceData_node 0) = DeviceDataObj (Some 0%nat) ∧
  ∃ s, ToString (DeviceData_node 0) = Ok s ∧
    String.length s
    = (String.length (TsNode_ToString (DeviceData_node 0)) + 9
       + String.length (device (backend 0)))%nat ∧
    s ≠ TsNode_ToString (DeviceData_node 0).
Proof.
  assert (H0 : derived (DeviceData_node 0) = DeviceDataObj (Some 0%nat))
    by reflexivity.
  split; [exact H0|].
  exact (ToString_length (DeviceData_node 0) 0 H0).
Defined.

(** X3 for the buffer at address 2. *)
Lemma constructed_node_prints_and_casts_witness :
  DeviceData (Some 2%nat) = Ok (DeviceData_node 2) ∧
  ∃ a, Some 2%nat = Some a ∧
    ToString (DeviceData_node 2)
    = Ok (TsNode_ToString (DeviceData_node 2) +:+ ", device="
          +:+ device (backend a)) ∧
    Cast (DeviceData_node 2) = Some (DeviceData_node 2).
Proof.
  assert (Hc : DeviceData (Some 2%nat) = Ok (DeviceData_node 2))
    by reflexivity.
  split; [exact Hc|].
  exact (constructed_node_prints_and_casts (Some 2%nat) (DeviceData_node 2) Hc).
Defined.

(** X4 for [Create] itself, at start-up. *)
Lemma Create_with_nonnull_witness :
  (∀ d s p s', MakeNode d s = Ok (p, s') → p ≠ nullptr) ∧
  Create_with ReuseNode MakeNode (Some 0%nat) initial_state
  = Ok (Some 0%nat, allocated (DeviceData_node 0) initial_state) ∧
  Some 0%nat ≠ nullptr.
Proof.
  assert (Hc : Create_with ReuseNode MakeNode (Some 0%nat) initial_state
               = Ok (Some 0%nat, allocated (DeviceData_node 0) initial_state))
    by reflexivity.
  split; [exact MakeNode_never_null|]. split; [exact Hc|].
  exact (Create_with_nonnull ReuseNode MakeNode (Some 0%nat) initial_state
           (Some 0%nat) _ MakeNode_never_null Hc).
Defined.

(** X5 for [Create] itself with the null handle: the failure is the one of
    [MakeNode], which runs the constructor. *)
Lemma Create_with_fails_in_a_helper_witness :
  (∀ r : NodePtr * IrState, NullDeref ≠ Ok r) ∧
  Create_with ReuseNode MakeNode None initial_state = NullDeref ∧
  ((FLAGS_torch_lazy_reuse_ir initial_state = true ∧
    ReuseNode ltc_device_data None initial_state = NullDeref)
   ∨ (∃ st1, MakeNode None st1 = NullDeref ∧
        ((FLAGS_torch_lazy_reuse_ir initial_state = false ∧
          st1 = initial_state)
         ∨ (FLAGS_torch_lazy_reuse_ir initial_state = true ∧
            ReuseNode ltc_device_data None initial_state
            = Ok (nullptr, st1))))).
Proof.
  assert (He : ∀ r : NodePtr * IrState, NullDeref ≠ Ok r)
    by (intros r; discriminate).
  assert (Hc : Create_with ReuseNode MakeNode None initial_state = NullDeref)
    by reflexivity.
  split; [exact He|]. split; [exact Hc|].
  exact (Create_with_fails_in_a_helper ReuseNode MakeNode None initial_state
           NullDeref He Hc).
Defined.

(** X6 for [Create] itself: it leaves the flag as it is and the allocated
    nodes where they are. *)
Lemma Create_with_changes_state_through_helpers_witness :
  Create_with ReuseNode MakeNode (Some 0%nat) initial_state
  = Ok (Some 0%nat, allocated (DeviceData_node 0) initial_state) ∧
  flag_kept_heap_extended initial_state
    (allocated (DeviceData_node 0) initial_state).
Proof.
  assert (Hc : Create_with ReuseNode MakeNode (Some 0%nat) initial_state
               = Ok (Some 0%nat, allocated (DeviceData_node 0) initial_state))
    by reflexivity.
  split; [exact Hc|].
  exact (Create_with_changes_state_through_helpers flag_kept_heap_extended
           ReuseNode MakeNode (Some 0%nat) initial_state (Some 0%nat) _
           flag_kept_heap_extended_refl flag_kept_heap_extended_trans
           ReuseNode_keeps MakeNode_keeps Hc).
Defined.

End FurtherWitnesses.
